(** * Accumulation types (ATen/AccumulateType.h) and the GenericSlice IR node
      (lazy_tensor_core/csrc/ops/generic_slice.cpp)

    A shallow embedding of the compile-time table [AccumulateTypeDevice] and
    of the [GenericSlice] node (constructor, [Clone], [ToString]), followed by
    the properties established about them. *)

From Stdlib Require Import ZArith List String Ascii Bool Lia.
From Stdlib Require Import Numbers.DecimalString DecimalZ DecimalPos.
Import ListNotations.

Open Scope Z_scope.
Open Scope string_scope.

(* ===================================================================== *)
(** ** ATen/AccumulateType.h *)
(* ===================================================================== *)

Module at_.

(** The C++ types that may instantiate the template parameter [T].  Every
    type the header names has a constructor of its own; [c10::complex<T>] is
    a type constructor; [other_type] stands for any further C++ type, given
    by its name.  [half] is the device compilers' native half type (the one
    of cuda_fp16.h / hip_fp16.h), distinct from [c10::Half]. *)
Inductive CType : Type :=
  | bool_t
  | int8_t
  | uint8_t
  | char_t
  | int16_t
  | int32_t
  | int64_t
  | half
  | Half
  | BFloat16
  | Float8_e5m2
  | Float8_e5m2fnuz
  | Float8_e4m3fn
  | Float8_e4m3fnuz
  | float_t
  | double_t
  | complex (T : CType)
  | other_type (name : string).

(** Modelled from the spec: [c10::DeviceType] is declared in
    c10/core/DeviceType.h, which is absent; the three device classes the
    header specializes on, and [other_device] for every further enumerator. *)
Inductive DeviceType : Type :=
  | CPU
  | CUDA
  | MPS
  | other_device (tag : nat).

Section Resolver.

(** [device_compiler] is the preprocessor condition
    [defined(__CUDACC__) || defined(__HIPCC__)] of the translation unit. *)
Variable device_compiler : bool.

(** [AccumulateTypeDevice<T, D>::type].  The primary template is an empty
    struct: it has no member [type], which is [None] here; each use of
    [ACC_TYPE(t, acc_t, device_type)] is one [Some] row. *)
Definition AccumulateTypeDevice (T : CType) (D : DeviceType) : option CType :=
  match D with
  | MPS =>
      match T with
      | BFloat16 => Some float_t
      | Half => Some float_t
      | Float8_e5m2 => Some float_t
      | Float8_e5m2fnuz => Some float_t
      | Float8_e4m3fn => Some float_t
      | Float8_e4m3fnuz => Some float_t
      | float_t => Some float_t
      | double_t => Some float_t
      | int8_t => Some int64_t
      | uint8_t => Some int64_t
      | char_t => Some int64_t
      | int16_t => Some int64_t
      | int32_t => Some int64_t
      | int64_t => Some int64_t
      | bool_t => Some bool_t
      | complex Half => Some (complex float_t)
      | complex float_t => Some (complex float_t)
      | complex double_t => Some (complex float_t)
      | _ => None
      end
  | CUDA =>
      match T with
      | half => if device_compiler then Some float_t else None
      | BFloat16 => Some float_t
      | Half => Some float_t
      | Float8_e5m2 => Some float_t
      | Float8_e5m2fnuz => Some float_t
      | Float8_e4m3fn => Some float_t
      | Float8_e4m3fnuz => Some float_t
      | float_t => Some float_t
      | double_t => Some double_t
      | int8_t => Some int64_t
      | uint8_t => Some int64_t
      | char_t => Some int64_t
      | int16_t => Some int64_t
      | int32_t => Some int64_t
      | int64_t => Some int64_t
      | bool_t => Some bool_t
      | complex Half => Some (complex float_t)
      | complex float_t => Some (complex float_t)
      | complex double_t => Some (complex double_t)
      | _ => None
      end
  | CPU =>
      match T with
      | BFloat16 => Some float_t
      | Half => Some float_t
      | Float8_e5m2 => Some float_t
      | Float8_e5m2fnuz => Some float_t
      | Float8_e4m3fn => Some float_t
      | Float8_e4m3fnuz => Some float_t
      | float_t => Some double_t
      | double_t => Some double_t
      | int8_t => Some int64_t
      | uint8_t => Some int64_t
      | char_t => Some int64_t
      | int16_t => Some int64_t
      | int32_t => Some int64_t
      | int64_t => Some int64_t
      | bool_t => Some bool_t
      | complex Half => Some (complex float_t)
      | complex float_t => Some (complex double_t)
      | complex double_t => Some (complex double_t)
      | _ => None
      end
  | other_device _ => None
  end.

(** [AccumulateType<T, bool>]: the two partial specializations. *)
Definition AccumulateType (T : CType) (is_cuda : bool) : option CType :=
  match is_cuda with
  | false => AccumulateTypeDevice T CPU
  | true => AccumulateTypeDevice T CUDA
  end.

(** The alias templates. *)
Definition acc_type_device (T : CType) (device : DeviceType) : option CType :=
  AccumulateTypeDevice T device.

Definition acc_type (T : CType) (is_cuda : bool) : option CType :=
  AccumulateType T is_cuda.

End Resolver.

(** The element types the table is keyed on, for every device class. *)
Definition element_types : list CType :=
  [ bool_t; int8_t; uint8_t; char_t; int16_t; int32_t; int64_t;
    Half; BFloat16;
    Float8_e5m2; Float8_e5m2fnuz; Float8_e4m3fn; Float8_e4m3fnuz;
    float_t; double_t;
    complex Half; complex float_t; complex double_t ].

Definition device_classes : list DeviceType := [ CPU; CUDA; MPS ].

(** The accelerator device classes among them. *)
Definition accelerators : list DeviceType := [ CUDA; MPS ].

(** The floating-point element types. *)
Definition floating_types : list CType :=
  [ Half; BFloat16;
    Float8_e5m2; Float8_e5m2fnuz; Float8_e4m3fn; Float8_e4m3fnuz;
    float_t; double_t ].

(** Storage width in bits of a real floating-point type. *)
Definition float_bits (T : CType) : option Z :=
  match T with
  | half | Half | BFloat16 => Some 16
  | Float8_e5m2 | Float8_e5m2fnuz | Float8_e4m3fn | Float8_e4m3fnuz => Some 8
  | float_t => Some 32
  | double_t => Some 64
  | _ => None
  end.

(** "Not wider than single precision": a floating type of at most 32 bits. *)
Definition at_most_single (T : CType) : Prop :=
  exists w, float_bits T = Some w /\ w <= 32.

(** The component types of the complex element types. *)
Definition complex_components : list CType := [ Half; float_t; double_t ].

(** The component-wise image of a complex type under a scalar policy. *)
Definition complex_of (r : option CType) : option CType :=
  match r with
  | Some A => Some (complex A)
  | None => None
  end.

(** The categories the header's rules distinguish ("If bool", "If floating
    point", "If integral"), and the complex types. *)
Inductive Category : Type :=
  | Boolean
  | Integral
  | Floating
  | Complex.

Definition category (T : CType) : option Category :=
  match T with
  | bool_t => Some Boolean
  | int8_t | uint8_t | char_t | int16_t | int32_t | int64_t => Some Integral
  | half | Half | BFloat16
  | Float8_e5m2 | Float8_e5m2fnuz | Float8_e4m3fn | Float8_e4m3fnuz
  | float_t | double_t => Some Floating
  | complex _ => Some Complex
  | other_type _ => None
  end.

(** The integral element types. *)
Definition integral_types : list CType :=
  [ int8_t; uint8_t; char_t; int16_t; int32_t; int64_t ].

(** The types that occur on the right of an [ACC_TYPE] row. *)
Definition accumulators : list CType :=
  [ bool_t; int64_t; float_t; double_t; complex float_t; complex double_t ].

(** The element types on which the three device rows are not all equal. *)
Definition device_dependent : list CType :=
  [ float_t; double_t; complex float_t; complex double_t ].

(** Bits of floating precision: the width of a floating type, of the
    component of a complex type, and 0 for a type that holds no float. *)
Definition precision_bits (T : CType) : Z :=
  match T with
  | complex T' => match float_bits T' with Some w => w | None => 0 end
  | _ => match float_bits T with Some w => w | None => 0 end
  end.

End at_.

(* ===================================================================== *)
(** ** lazy_tensor_core/csrc/ops/generic_slice.cpp *)
(* ===================================================================== *)

Module ir.

(** Failures raised while a node is built or queried. *)
Inductive Error : Type :=
  | index_error (Index Length : nat)      (* bounds-checked access *)
  | shape_error (msg : string)            (* graph-construction error *)
  | no_shape_fn.                          (* shape asked, none registered *)

Inductive result (A : Type) : Type :=
  | Ok (a : A)
  | Err (e : Error).
Arguments Ok {A} a.
Arguments Err {A} e.

Definition bind {A B : Type} (r : result A) (k : A -> result B) : result B :=
  match r with
  | Ok a => k a
  | Err e => Err e
  end.

Notation "x <- r ;; k" := (bind r (fun x => k))
  (at level 61, r at next level, right associativity).

(** Modelled from the spec: the tensor shape type is declared in an absent
    header; an element-type tag and one extent per dimension. *)
Record Shape : Type := mkShape {
  element_type : nat;
  dimensions : list Z
}.

(** Modelled from the spec: [torch::lazy::Value] is declared in an absent
    header; a reference to output [index] of the producing node, together
    with the shape of that output. *)
Record Value : Type := mkValue {
  node : nat;
  index : nat;
  shape : Shape
}.

(** Modelled from the spec: the operation kinds live in the absent
    ltc_ops.h; [ltc_generic_slice] is the one this file uses. *)
Inductive OpKind : Type :=
  | ltc_generic_slice
  | other_op (name : string).

(** Modelled from the spec: [torch::lazy::hash_t] is declared in an absent
    header; an unsigned machine word, kept as a [Z] in [0, 2^bits). *)
Definition hash_t : Type := Z.

(** Modelled from the spec: the deferred shape of the absent node base, "a
    slot holding either unevaluated + recipe or evaluated + result".  The
    only recipe this file registers is [InferShape(this)], so the
    unevaluated slot needs no payload; [shape_absent] is the slot of a base
    object built without a shape, before any recipe is registered. *)
Inductive ShapeSlot : Type :=
  | shape_absent
  | shape_deferred
  | shape_evaluated (s : Shape).

(** Modelled from the spec: the absent [TsNode] base class, reduced to what
    its constructor receives from this file and to the shape slot. *)
Record TsNode : Type := mkTsNode {
  op : OpKind;
  operands : list Value;
  num_outputs : nat;
  hash : hash_t;
  shape_ : ShapeSlot
}.

(** The node of this file: the base object and the two attribute vectors
    (of [int64_t], kept as [Z]). *)
Record GenericSlice : Type := mkGenericSlice {
  base : TsNode;
  base_indices_ : list Z;
  sizes_ : list Z
}.

(** [OpList] is an array reference; [at] is its bounds-checked access. *)
Definition OpList : Type := list Value.

Definition ArrayRef_at {A : Type} (l : list A) (Index : nat) : result A :=
  match nth_error l Index with
  | Some a => Ok a
  | None => Err (index_error Index (List.length l))
  end.

(** [operator<<] on an [int64_t]: signed decimal. *)
Definition show_int64 (z : Z) : string :=
  NilZero.string_of_int (Z.to_int z).

(** Modelled from the spec: [c10::Join] is defined in an absent header; the
    elements, each streamed with [operator<<], separated by the delimiter
    ("comma-joined"). *)
Fixpoint Join (delimiter : string) (v : list Z) : string :=
  match v with
  | [] => ""
  | x :: rest =>
      match rest with
      | [] => show_int64 x
      | _ :: _ => show_int64 x ++ delimiter ++ Join delimiter rest
      end
  end.

(** A [std::stringstream] used for output only: its buffer. *)
Definition stringstream : Type := string.
Definition stringstream_new : stringstream := "".
Definition put (ss : stringstream) (s : string) : stringstream := ss ++ s.
Definition str (ss : stringstream) : string := ss.

Notation "ss << s" := (put ss s) (at level 50, left associativity).

Section Node.

(** What the absent collaborators compute is left open:
    [MHash] hashes the two attribute sequences, [node_hash] is how the base
    constructor combines the operation kind with the seed it is given,
    [TsNode_ToString] is the base description, and [InferShape] is the
    shape-inference service. *)
Variable MHash : list Z -> list Z -> hash_t.
Variable node_hash : OpKind -> hash_t -> hash_t.
Variable TsNode_ToString : TsNode -> string.
Variable InferShape : GenericSlice -> result Shape.

(** Modelled from the spec: the constructor of the absent [TsNode] base,
    [TsNode(op, operands, num_outputs, hash_seed)]; it stores what it is
    given, combines the kind with the seed, and has no shape yet. *)
Definition TsNode_new (o : OpKind) (ops : OpList) (n : nat)
    (hash_seed : hash_t) : TsNode :=
  {| op := o; operands := ops; num_outputs := n;
     hash := node_hash o hash_seed; shape_ := shape_absent |}.

(** Modelled from the spec: [SetShapeDeferred] of the absent base, called as
    [SetShapeDeferred([&]() { return compiler::InferShape(this); })]; it
    registers the recipe and computes nothing. *)
Definition SetShapeDeferred (this : GenericSlice) : GenericSlice :=
  {| base :=
       {| op := op (base this); operands := operands (base this);
          num_outputs := num_outputs (base this); hash := hash (base this);
          shape_ := shape_deferred |};
     base_indices_ := base_indices_ this;
     sizes_ := sizes_ this |}.

(** [GenericSlice::GenericSlice(input, base_indices, sizes)]. *)
Definition GenericSlice_new (input : Value) (base_indices sizes : list Z)
    : GenericSlice :=
  let this :=
    {| base := TsNode_new ltc_generic_slice [input] 1
                 (MHash base_indices sizes);
       base_indices_ := base_indices;
       sizes_ := sizes |} in
  SetShapeDeferred this.

(** [torch::lazy::MakeNode<GenericSlice>(...)]: runs the constructor. *)
Definition MakeNode (input : Value) (base_indices sizes : list Z)
    : GenericSlice :=
  GenericSlice_new input base_indices sizes.

(** [GenericSlice::Clone(operands)]. *)
Definition Clone (this : GenericSlice) (operands : OpList)
    : result GenericSlice :=
  input <- ArrayRef_at operands 0 ;;
  Ok (MakeNode input (base_indices_ this) (sizes_ this)).

(** [GenericSlice::ToString()]. *)
Definition ToString (this : GenericSlice) : string :=
  let ss := stringstream_new in
  let ss := ss << TsNode_ToString (base this) << ", base_indices=("
               << Join ", " (base_indices_ this) << "), sizes=("
               << Join ", " (sizes_ this) << ")" in
  str ss.

(** Storing a computed shape in the slot. *)
Definition set_shape (this : GenericSlice) (s : Shape) : GenericSlice :=
  {| base :=
       {| op := op (base this); operands := operands (base this);
          num_outputs := num_outputs (base this); hash := hash (base this);
          shape_ := shape_evaluated s |};
     base_indices_ := base_indices_ this;
     sizes_ := sizes_ this |}.

(** Modelled from the spec: the shape accessor of the absent node base, a
    memoized lazy value.  The first demand runs the registered recipe and
    stores its result; a failing recipe stores nothing and the failure goes
    to the caller. *)
Definition get_shape (this : GenericSlice) : result Shape * GenericSlice :=
  match shape_ (base this) with
  | shape_evaluated s => (Ok s, this)
  | shape_deferred =>
      match InferShape this with
      | Ok s => (Ok s, set_shape this s)
      | Err e => (Err e, this)
      end
  | shape_absent => (Err no_shape_fn, this)
  end.

End Node.

(** [sub] occurs in [s]. *)
Definition contains (s sub : string) : Prop :=
  exists pre post, s = pre ++ sub ++ post.

(** The characters a rendered [int64_t] is made of. *)
Definition num_char (c : ascii) : bool :=
  match c with
  | "0" | "1" | "2" | "3" | "4" | "5" | "6" | "7" | "8" | "9" | "-" => true
  | _ => false
  end%char.

(** The characters a joined attribute list is made of. *)
Definition list_char (c : ascii) : bool :=
  num_char c || Ascii.eqb c "," || Ascii.eqb c " ".

Fixpoint all_chars (P : ascii -> bool) (s : string) : bool :=
  match s with
  | EmptyString => true
  | String c rest => P c && all_chars P rest
  end.

(** [s] is empty or begins with a character outside [P]. *)
Definition stops (P : ascii -> bool) (s : string) : bool :=
  match s with
  | EmptyString => true
  | String c _ => negb (P c)
  end.

End ir.

Module compiler.
Import ir.

(** Every start offset is non-negative and every slice ends inside the
    extent of its dimension. *)
Fixpoint in_bounds (base_indices sizes dims : list Z) : bool :=
  match base_indices, sizes, dims with
  | b :: bs, s :: ss, d :: ds =>
      (0 <=? b)%Z && (b + s <=? d)%Z && in_bounds bs ss ds
  | _, _, _ => true
  end.

(** Modelled from the spec: [compiler::InferShape] (ts_shape_inference) is
    absent.  "Output rank == input rank; output extents == sizes"; it fails
    when [base_indices]/[sizes] are inconsistent with the shape of the
    input: a rank mismatch, or a slice that is out of bounds. *)
Definition InferShape (n : GenericSlice) : result Shape :=
  input <- ArrayRef_at (operands (base n)) 0 ;;
  let dims := dimensions (shape input) in
  if negb (Nat.eqb (List.length (base_indices_ n)) (List.length dims))
     || negb (Nat.eqb (List.length (sizes_ n)) (List.length dims))
  then Err (shape_error "rank mismatch")
  else if in_bounds (base_indices_ n) (sizes_ n) dims
  then Ok {| element_type := element_type (shape input);
             dimensions := sizes_ n |}
  else Err (shape_error "slice out of bounds").

End compiler.

(* ===================================================================== *)
(** ** Properties of the accumulation-type table *)
(* ===================================================================== *)

Import at_.

(** Membership in the short key lists is settled by evaluation. *)
Ltac in_list := simpl; repeat (first [ left; reflexivity | right ]); fail.

Ltac not_in_list :=
  let H := fresh in
  simpl; intro H;
  repeat (destruct H as [H | H]; [ discriminate H | ]); exact H.

(** C1, as first stated, fails: [double] is a floating-point element type,
    CUDA is an accelerator, and [AccumulateTypeDevice<double, CUDA>::type]
    is [double], which is wider than single precision and is not [float],
    whatever the compiler. *)
Lemma C1_double_on_CUDA_stays_double :
  In double_t floating_types /\ In CUDA accelerators /\
  AccumulateTypeDevice false double_t CUDA = Some double_t /\
  AccumulateTypeDevice true double_t CUDA = Some double_t /\
  ~ at_most_single double_t /\
  double_t <> float_t.
Proof.
  repeat split; try in_list; try discriminate.
  intros [w [Hw Hle]]. simpl in Hw. injection Hw as <-. lia.
Qed.

(** C1 (amended): for every floating-point element type and every
    accelerator device class the accumulation type exists; it is [float],
    hence not wider than single precision, for every pair except
    ([double], CUDA), and for that pair it is [double]. *)
Theorem C1_accelerator_floating_acc_type
    (device_compiler : bool) (T : CType) (D : DeviceType) :
  In T floating_types -> In D accelerators ->
  exists A, AccumulateTypeDevice device_compiler T D = Some A /\
    (((T, D) = (double_t, CUDA) /\ A = double_t) \/
     ((T, D) <> (double_t, CUDA) /\ A = float_t /\ at_most_single A)).
Proof.
  intros HT HD.
  assert (Hsingle : at_most_single float_t).
  { exists 32. split; [ reflexivity | lia ]. }
  simpl in HT, HD.
  destruct HD as [<- | [<- | []]];
    repeat (destruct HT as [<- | HT]); try contradiction;
    eexists; (split; [ reflexivity | ]);
    first [ left; split; reflexivity
          | right; repeat split; [ discriminate | exact Hsingle ] ].
Qed.

Lemma C1_accelerator_floating_acc_type_witness :
  exists A, AccumulateTypeDevice true double_t MPS = Some A /\
    (((double_t, MPS) = (double_t, CUDA) /\ A = double_t) \/
     ((double_t, MPS) <> (double_t, CUDA) /\ A = float_t /\ at_most_single A)).
Proof.
  apply (C1_accelerator_floating_acc_type true double_t MPS).
  - in_list.
  - in_list.
Defined.

(** C2, as first stated, fails: CUDA is an accelerator and
    [AccumulateTypeDevice<c10::complex<double>, CUDA>::type] is
    [c10::complex<double>], not [c10::complex<float>]. *)
Lemma C2_complex_double_on_CUDA_stays_double :
  In CUDA accelerators /\
  AccumulateTypeDevice false (complex double_t) CUDA = Some (complex double_t) /\
  AccumulateTypeDevice true (complex double_t) CUDA = Some (complex double_t) /\
  Some (complex double_t) <> Some (complex float_t).
Proof.
  repeat split; try in_list; discriminate.
Qed.

(** C2 (amended): on each of the three device classes a complex element
    type resolves to the complex type over what its component resolves to;
    [complex<double>] resolves to [complex<float>] on MPS and stays
    [complex<double>] on CUDA, and on CPU [complex<float>] resolves to
    [complex<double>]. *)
Theorem C2_complex_componentwise
    (device_compiler : bool) (T : CType) (D : DeviceType) :
  In T complex_components -> In D device_classes ->
  AccumulateTypeDevice device_compiler (complex T) D
    = complex_of (AccumulateTypeDevice device_compiler T D) /\
  AccumulateTypeDevice device_compiler (complex double_t) MPS
    = Some (complex float_t) /\
  AccumulateTypeDevice device_compiler (complex double_t) CUDA
    = Some (complex double_t) /\
  AccumulateTypeDevice device_compiler (complex float_t) CPU
    = Some (complex double_t).
Proof.
  intros HT HD. simpl in HT, HD.
  destruct HD as [<- | [<- | [<- | []]]];
    destruct HT as [<- | [<- | [<- | []]]];
    repeat split; reflexivity.
Qed.

Lemma C2_complex_componentwise_witness :
  AccumulateTypeDevice false (complex float_t) CPU
    = complex_of (AccumulateTypeDevice false float_t CPU) /\
  AccumulateTypeDevice false (complex double_t) MPS
    = Some (complex float_t) /\
  AccumulateTypeDevice false (complex double_t) CUDA
    = Some (complex double_t) /\
  AccumulateTypeDevice false (complex float_t) CPU
    = Some (complex double_t).
Proof.
  apply (C2_complex_componentwise false float_t CPU).
  - in_list.
  - in_list.
Defined.

(** C3, as first stated, fails in a translation unit of a device compiler:
    the native [half] is none of the eighteen listed element types, yet
    [AccumulateTypeDevice<half, CUDA>] is specialized there and resolves to
    [float]. *)
Lemma C3_native_half_resolves_on_CUDA :
  ~ In half element_types /\
  AccumulateTypeDevice true half CUDA = Some float_t.
Proof.
  split; [ not_in_list | reflexivity ].
Qed.

(** C3 (amended): every listed (element type, device class) pair resolves,
    under either compiler; a pair outside the table has no [type] member,
    the one exception being the native [half] on CUDA, which a device
    compiler resolves to [float]. *)
Theorem C3_table_total_and_closed
    (device_compiler : bool) (T : CType) (D : DeviceType) :
  (In T element_types /\ In D device_classes ->
     exists A, AccumulateTypeDevice device_compiler T D = Some A) /\
  (~ (In T element_types /\ In D device_classes) ->
     (device_compiler, T, D) <> (true, half, CUDA) ->
     AccumulateTypeDevice device_compiler T D = None) /\
  AccumulateTypeDevice true half CUDA = Some float_t /\
  AccumulateTypeDevice false half CUDA = None.
Proof.
  split; [ | split; [ | split; reflexivity ] ].
  - intros [HT HD]. simpl in HT, HD.
    destruct HD as [<- | [<- | [<- | []]]];
      repeat (destruct HT as [<- | HT]); try contradiction;
      eexists; reflexivity.
  - intros Hout Hhalf.
    destruct D; try reflexivity;
      destruct T as [ | | | | | | | | | | | | | | | | T' | name ];
      try reflexivity;
      try (destruct T'; try reflexivity);
      try (exfalso; apply Hout; split; in_list).
    destruct device_compiler; [ | reflexivity ].
    exfalso. apply Hhalf. reflexivity.
Qed.

Lemma C3_table_total_and_closed_witness :
  (exists A, AccumulateTypeDevice false (complex Half) MPS = Some A) /\
  AccumulateTypeDevice true (complex BFloat16) CUDA = None /\
  AccumulateTypeDevice false float_t (other_device 6) = None.
Proof.
  split; [ | split ].
  - apply (proj1 (C3_table_total_and_closed false (complex Half) MPS)).
    split; in_list.
  - apply (proj1 (proj2
             (C3_table_total_and_closed true (complex BFloat16) CUDA))).
    + intros [HT _]. revert HT. not_in_list.
    + discriminate.
  - apply (proj1 (proj2
             (C3_table_total_and_closed false float_t (other_device 6)))).
    + intros [_ HD]. revert HD. not_in_list.
    + discriminate.
Defined.

(** C4: for every type [T], under either compiler, the boolean form agrees
    with the device-class form: [acc_type<T, true>] is
    [acc_type_device<T, CUDA>] and [acc_type<T, false>] is
    [acc_type_device<T, CPU>], a missing [type] member included. *)
Theorem C4_acc_type_flag_agrees (device_compiler : bool) (T : CType) :
  acc_type device_compiler T true = acc_type_device device_compiler T CUDA /\
  acc_type device_compiler T false = acc_type_device device_compiler T CPU.
Proof.
  unfold acc_type, acc_type_device, AccumulateType. split; reflexivity.
Qed.

(** C5: on the CPU device class [float] resolves to [double]. *)
Theorem C5_CPU_float_is_double (device_compiler : bool) :
  acc_type_device device_compiler float_t CPU = Some double_t /\
  acc_type device_compiler float_t false = Some double_t.
Proof.
  split; reflexivity.
Qed.

(* ===================================================================== *)
(** ** Properties of the GenericSlice node *)
(* ===================================================================== *)

Import ir.

Section StringFacts.

Lemma append_assoc (a b c : string) : (a ++ b) ++ c = a ++ (b ++ c).
Proof.
  induction a as [ | ch a IH ]; simpl; [ reflexivity | now rewrite IH ].
Qed.

(** [Join] is the separator-interleaved concatenation of the rendered
    elements. *)
Lemma Join_concat (delimiter : string) (v : list Z) :
  Join delimiter v = String.concat delimiter (map show_int64 v).
Proof.
  induction v as [ | x rest IH ]; [ reflexivity | ].
  destruct rest as [ | y rest ]; [ reflexivity | ].
  change (Join delimiter (x :: y :: rest))
    with (show_int64 x ++ delimiter ++ Join delimiter (y :: rest)).
  rewrite IH. reflexivity.
Qed.

(** What the stream holds after the five insertions of [ToString]. *)
Lemma ToString_unfold (TsNode_ToString : TsNode -> string)
    (this : GenericSlice) :
  ToString TsNode_ToString this =
    TsNode_ToString (base this) ++ ", base_indices=(" ++
    Join ", " (base_indices_ this) ++ "), sizes=(" ++
    Join ", " (sizes_ this) ++ ")".
Proof.
  unfold ToString, str, put, stringstream_new. simpl.
  now rewrite !append_assoc.
Qed.

End StringFacts.

Section ShapeInference.

(** A slice that starts before the origin or ends beyond the extent of
    some dimension is rejected by the bounds test. *)
Lemma in_bounds_rejects (i : nat) :
  forall (bs ss ds : list Z) (b s d : Z),
    nth_error bs i = Some b -> nth_error ss i = Some s ->
    nth_error ds i = Some d ->
    b < 0 \/ b + s > d ->
    compiler.in_bounds bs ss ds = false.
Proof.
  induction i as [ | i IH ]; intros bs ss ds b s d Hb Hs Hd Hbad;
    destruct bs as [ | b0 bs ]; try discriminate;
    destruct ss as [ | s0 ss ]; try discriminate;
    destruct ds as [ | d0 ds ]; try discriminate; simpl in *.
  - injection Hb as ->. injection Hs as ->. injection Hd as ->.
    destruct (Z.leb_spec 0 b); destruct (Z.leb_spec (b + s) d);
      simpl; try reflexivity; lia.
  - rewrite (IH _ _ _ _ _ _ Hb Hs Hd Hbad).
    now rewrite andb_false_r.
Qed.

End ShapeInference.

(** C6: for any node and any replacement list of exactly one operand,
    [Clone] succeeds with a GenericSlice node that has the attributes of the
    original and the replacement as its single input.  Its shape slot is
    unevaluated whatever the slot of the original holds, the first demand
    runs shape inference on the clone itself, and the clone is the same
    whichever shape the original has cached. *)
Theorem C6_Clone_rebinds_operand
    (MHash : list Z -> list Z -> hash_t)
    (node_hash : OpKind -> hash_t -> hash_t)
    (InferShape : GenericSlice -> result Shape)
    (this : GenericSlice) (v : Value) :
  exists clone,
    Clone MHash node_hash this [v] = Ok clone /\
    op (base clone) = ltc_generic_slice /\
    base_indices_ clone = base_indices_ this /\
    sizes_ clone = sizes_ this /\
    operands (base clone) = [v] /\
    shape_ (base clone) = shape_deferred /\
    get_shape InferShape clone =
      match InferShape clone with
      | Ok s => (Ok s, set_shape clone s)
      | Err e => (Err e, clone)
      end /\
    (forall cached : Shape,
       Clone MHash node_hash (set_shape this cached) [v] = Ok clone).
Proof.
  eexists. split; [ reflexivity | ].
  repeat split.
Qed.

(** The spec's example for [Clone]: attributes (1,1)/(2,2), a cached shape
    in the original, and a new operand of shape (6,6); the shape of the
    clone is inferred as (2,2). *)
Example Clone_shape_example
    (MHash : list Z -> list Z -> hash_t)
    (node_hash : OpKind -> hash_t -> hash_t) (old : Value) :
  let new := mkValue 1 0 (mkShape 7 [6; 6]) in
  let original :=
    set_shape (GenericSlice_new MHash node_hash old [1; 1] [2; 2])
      (mkShape 7 [9; 9]) in
  exists clone,
    Clone MHash node_hash original [new] = Ok clone /\
    fst (get_shape compiler.InferShape clone) = Ok (mkShape 7 [2; 2]).
Proof.
  intros new original. eexists. split; reflexivity.
Qed.

(** C7: when [base_indices]/[sizes] do not fit the shape of the input (one
    of them has a length other than the input rank, or in some dimension
    the slice starts below zero or ends beyond the extent), shape inference
    fails with a graph-construction error; the demand for the shape of the
    node returns that error and leaves the node as it was, its slot still
    unevaluated. *)
Theorem C7_malformed_slice_fails
    (MHash : list Z -> list Z -> hash_t)
    (node_hash : OpKind -> hash_t -> hash_t)
    (input : Value) (base_indices sizes : list Z) :
  let dims := dimensions (shape input) in
  let n := GenericSlice_new MHash node_hash input base_indices sizes in
  (List.length base_indices <> List.length dims \/
   List.length sizes <> List.length dims \/
   exists i b s d,
     nth_error base_indices i = Some b /\ nth_error sizes i = Some s /\
     nth_error dims i = Some d /\ (b < 0 \/ b + s > d)) ->
  exists msg,
    compiler.InferShape n = Err (shape_error msg) /\
    get_shape compiler.InferShape n = (Err (shape_error msg), n) /\
    shape_ (base (snd (get_shape compiler.InferShape n))) = shape_deferred.
Proof.
  intros dims n Hbad.
  assert (Hinfer : exists msg, compiler.InferShape n = Err (shape_error msg)).
  { unfold compiler.InferShape, n. simpl. fold dims.
    destruct (Nat.eqb_spec (List.length base_indices) (List.length dims))
      as [Hb | Hb]; simpl; [ | eexists; reflexivity ].
    destruct (Nat.eqb_spec (List.length sizes) (List.length dims))
      as [Hs | Hs]; simpl; [ | eexists; reflexivity ].
    destruct Hbad as [Hbad | [Hbad | Hbad]]; try contradiction.
    destruct Hbad as [i [b [s [d [Hbi [Hsi [Hdi Hout]]]]]]].
    rewrite (in_bounds_rejects i _ _ _ _ _ _ Hbi Hsi Hdi Hout).
    eexists; reflexivity. }
  destruct Hinfer as [msg Hmsg]. exists msg.
  assert (Hget : get_shape compiler.InferShape n = (Err (shape_error msg), n)).
  { unfold get_shape. change (shape_ (base n)) with shape_deferred.
    now rewrite Hmsg. }
  split; [ exact Hmsg | split; [ exact Hget | ] ].
  rewrite Hget. reflexivity.
Qed.

(** The example of the spec: [base_indices = (0,)], [sizes = (10,)] against
    an input of shape (5,). *)
Lemma C7_malformed_slice_fails_witness :
  let input := mkValue 0 0 (mkShape 7 [5]) in
  let n := GenericSlice_new (fun _ _ => 0) (fun _ h => h) input [0] [10] in
  exists msg,
    compiler.InferShape n = Err (shape_error msg) /\
    get_shape compiler.InferShape n = (Err (shape_error msg), n) /\
    shape_ (base (snd (get_shape compiler.InferShape n))) = shape_deferred.
Proof.
  apply (C7_malformed_slice_fails (fun _ _ => 0) (fun _ h => h)
           (mkValue 0 0 (mkShape 7 [5])) [0] [10]).
  right. right. exists 0%nat, 0, 10, 5.
  simpl. repeat split; try reflexivity. right. lia.
Defined.

(** The well-formed example of the spec: an input of shape (8,8) sliced at
    (2,3) with sizes (4,4) has the inferred shape (4,4), which the first
    demand stores in the slot. *)
Example InferShape_example
    (MHash : list Z -> list Z -> hash_t)
    (node_hash : OpKind -> hash_t -> hash_t) :
  let n := GenericSlice_new MHash node_hash
             (mkValue 0 0 (mkShape 7 [8; 8])) [2; 3] [4; 4] in
  get_shape compiler.InferShape n
    = (Ok (mkShape 7 [4; 4]), set_shape n (mkShape 7 [4; 4])).
Proof.
  reflexivity.
Qed.

(** C8: [ToString] is the base description, then [", base_indices=("], the
    base indices joined by [", "], then ["), sizes=("], the sizes joined by
    [", "], then [")"]; a node built with base indices (2,3) and sizes
    (4,4) has "base_indices=(2, 3), sizes=(4, 4)" in its string. *)
Theorem C8_ToString_format
    (MHash : list Z -> list Z -> hash_t)
    (node_hash : OpKind -> hash_t -> hash_t)
    (TsNode_ToString : TsNode -> string)
    (this : GenericSlice) (input : Value) :
  ToString TsNode_ToString this =
    TsNode_ToString (base this) ++ ", base_indices=(" ++
    String.concat ", " (map show_int64 (base_indices_ this)) ++
    "), sizes=(" ++
    String.concat ", " (map show_int64 (sizes_ this)) ++ ")" /\
  contains
    (ToString TsNode_ToString
       (GenericSlice_new MHash node_hash input [2; 3] [4; 4]))
    "base_indices=(2, 3), sizes=(4, 4)".
Proof.
  split.
  - rewrite ToString_unfold, !Join_concat. reflexivity.
  - rewrite ToString_unfold.
    exists (TsNode_ToString
              (base (GenericSlice_new MHash node_hash input [2; 3] [4; 4]))
            ++ ", "), "".
    rewrite append_assoc. reflexivity.
Qed.

(** C10: [Clone] reads the operand at index 0 only: with one or more
    operands the result is that of the one-element list holding the first,
    the node built over it, and with no operand the bounds-checked access
    fails and no node is built. *)
Theorem C10_Clone_reads_first_operand
    (MHash : list Z -> list Z -> hash_t)
    (node_hash : OpKind -> hash_t -> hash_t)
    (this : GenericSlice) (v : Value) (rest : list Value) :
  Clone MHash node_hash this (v :: rest) = Clone MHash node_hash this [v] /\
  Clone MHash node_hash this (v :: rest)
    = Ok (GenericSlice_new MHash node_hash v
            (base_indices_ this) (sizes_ this)) /\
  Clone MHash node_hash this [] = Err (index_error 0 0).
Proof.
  repeat split.
Qed.

(* ===================================================================== *)
(** ** Further properties of the accumulation-type table *)
(* ===================================================================== *)

(** Case analysis over a whole row set: the device, the type, the
    component of a complex type, and the compiler. *)
Ltac table_cases T D c :=
  destruct D; try discriminate;
  destruct T as [ | | | | | | | | | | | | | | | | T | ? ];
  try discriminate;
  try (destruct T; try discriminate);
  try (destruct c; try discriminate).

(** X1: every integral element type accumulates in [int64_t] and [bool]
    accumulates in [bool], on each of the three device classes. *)
Theorem integral_and_bool_acc_type
    (device_compiler : bool) (T : CType) (D : DeviceType) :
  In T integral_types -> In D device_classes ->
  AccumulateTypeDevice device_compiler T D = Some int64_t /\
  AccumulateTypeDevice device_compiler bool_t D = Some bool_t.
Proof.
  intros HT HD. simpl in HT, HD.
  destruct HD as [<- | [<- | [<- | []]]];
    repeat (destruct HT as [<- | HT]); try contradiction;
    split; reflexivity.
Qed.

Lemma integral_and_bool_acc_type_witness :
  AccumulateTypeDevice true uint8_t MPS = Some int64_t /\
  AccumulateTypeDevice true bool_t MPS = Some bool_t.
Proof.
  apply (integral_and_bool_acc_type true uint8_t MPS); in_list.
Defined.

(** X2: whatever resolves, resolves to one of [bool], [int64_t], [float],
    [double], [complex<float>], [complex<double>]: no accumulation type is
    a reduced-precision float, a complex over one, or a narrow integer. *)
Theorem acc_type_is_never_reduced
    (device_compiler : bool) (T A : CType) (D : DeviceType) :
  AccumulateTypeDevice device_compiler T D = Some A ->
  In A accumulators.
Proof.
  intros H.
  table_cases T D device_compiler;
    simpl in H; injection H as <-; in_list.
Qed.

Lemma acc_type_is_never_reduced_witness :
  In float_t accumulators.
Proof.
  apply (acc_type_is_never_reduced false Float8_e4m3fn float_t CPU).
  reflexivity.
Defined.

(** X3: the table is closed under resolution: a resolved accumulation type
    is itself a key on the same device.  On CUDA and on MPS it resolves to
    itself; on CPU one more step reaches a type that does (Half, float,
    double, double). *)
Theorem acc_type_resolves_again
    (device_compiler : bool) (T A : CType) (D : DeviceType) :
  AccumulateTypeDevice device_compiler T D = Some A ->
  (D <> CPU -> AccumulateTypeDevice device_compiler A D = Some A) /\
  exists A',
    AccumulateTypeDevice device_compiler A D = Some A' /\
    AccumulateTypeDevice device_compiler A' D = Some A'.
Proof.
  intros H.
  table_cases T D device_compiler;
    simpl in H; injection H as <-;
    (split; [ intros HD; try reflexivity; exfalso; apply HD; reflexivity
            | eexists; split; reflexivity ]).
Qed.

Lemma acc_type_resolves_again_witness :
  (CUDA <> CPU -> AccumulateTypeDevice true float_t CUDA = Some float_t) /\
  exists A',
    AccumulateTypeDevice true float_t CUDA = Some A' /\
    AccumulateTypeDevice true A' CUDA = Some A'.
Proof.
  apply (acc_type_resolves_again true half float_t CUDA). reflexivity.
Defined.

(** On CPU the accumulation type of an accumulation type may differ from
    it: [Half] accumulates in [float], and [float] in [double]. *)
Example CPU_acc_type_not_idempotent :
  AccumulateTypeDevice false Half CPU = Some float_t /\
  AccumulateTypeDevice false float_t CPU = Some double_t.
Proof.
  split; reflexivity.
Qed.

(** X4: the table does not depend on the compiler, the native [half]
    apart: every other type resolves alike in a host and in a device
    translation unit. *)
Theorem acc_type_same_for_both_compilers
    (c c' : bool) (T : CType) (D : DeviceType) :
  T <> half ->
  AccumulateTypeDevice c T D = AccumulateTypeDevice c' T D.
Proof.
  intros HT.
  destruct D; try reflexivity; destruct T; try reflexivity.
  exfalso. apply HT. reflexivity.
Qed.

Lemma acc_type_same_for_both_compilers_witness :
  AccumulateTypeDevice true (complex Half) CUDA
    = AccumulateTypeDevice false (complex Half) CUDA.
Proof.
  apply (acc_type_same_for_both_compilers true false (complex Half) CUDA).
  discriminate.
Defined.

(** X5: for every element type of the table the three device rows exist
    and are ordered by precision, MPS at most CUDA at most CPU; they are
    one and the same type unless the element type is [float], [double],
    [complex<float>] or [complex<double>]. *)
Theorem device_rows_ordered (device_compiler : bool) (T : CType) :
  In T element_types ->
  exists Am Ac Ap,
    AccumulateTypeDevice device_compiler T MPS = Some Am /\
    AccumulateTypeDevice device_compiler T CUDA = Some Ac /\
    AccumulateTypeDevice device_compiler T CPU = Some Ap /\
    precision_bits Am <= precision_bits Ac <= precision_bits Ap /\
    (~ In T device_dependent -> Am = Ac /\ Ac = Ap).
Proof.
  intros HT. simpl in HT.
  repeat (destruct HT as [<- | HT]); try contradiction;
    do 3 eexists; (repeat (split; [ reflexivity | ])); simpl;
    (split; [ lia | ]);
    intros Hdep; try (split; reflexivity);
    exfalso; apply Hdep; in_list.
Qed.

Lemma device_rows_ordered_witness :
  exists Am Ac Ap,
    AccumulateTypeDevice false double_t MPS = Some Am /\
    AccumulateTypeDevice false double_t CUDA = Some Ac /\
    AccumulateTypeDevice false double_t CPU = Some Ap /\
    precision_bits Am <= precision_bits Ac <= precision_bits Ap /\
    (~ In double_t device_dependent -> Am = Ac /\ Ac = Ap).
Proof.
  apply (device_rows_ordered false double_t). in_list.
Defined.

(** X6: on CPU and on CUDA accumulation never loses precision: the
    accumulation type has at least the floating precision of the element
    type.  On MPS it has at most 32 bits of it, so [double] and
    [complex<double>] are narrowed there. *)
Theorem acc_type_precision
    (device_compiler : bool) (T A : CType) (D : DeviceType) :
  AccumulateTypeDevice device_compiler T D = Some A ->
  (D <> MPS -> precision_bits T <= precision_bits A) /\
  (D = MPS -> precision_bits A <= 32 /\
     (precision_bits A < precision_bits T <->
      T = double_t \/ T = complex double_t)).
Proof.
  intros H.
  table_cases T D device_compiler;
    simpl in H; injection H as <-;
    (split; [ intros HD; try (simpl; lia); exfalso; apply HD; reflexivity | ]);
    intros HD; try discriminate HD;
    (split; [ simpl; lia | ]);
    (split; [ simpl; intros Hlt; first [ lia | left; reflexivity
                                      | right; reflexivity ]
            | intros [Heq | Heq]; try discriminate Heq; simpl; lia ]).
Qed.

Lemma acc_type_precision_witness :
  (MPS <> MPS -> precision_bits (complex double_t)
                   <= precision_bits (complex float_t)) /\
  (MPS = MPS -> precision_bits (complex float_t) <= 32 /\
     (precision_bits (complex float_t) < precision_bits (complex double_t) <->
      complex double_t = double_t \/ complex double_t = complex double_t)).
Proof.
  apply (acc_type_precision false (complex double_t) (complex float_t) MPS).
  reflexivity.
Defined.

(** X7: the boolean form cannot stand for MPS: whichever flag is passed,
    some element type of the table resolves differently than it does on
    MPS ([double] stays [double] under both flags, and is [float] on
    MPS). *)
Theorem acc_type_flag_never_MPS (device_compiler is_cuda : bool) :
  exists T,
    In T element_types /\
    acc_type device_compiler T is_cuda
      <> acc_type_device device_compiler T MPS.
Proof.
  exists double_t. split; [ in_list | ].
  destruct is_cuda; discriminate.
Qed.

(** X8: resolution keeps the category: a [bool] accumulates in a boolean,
    an integer in an integer, a float in a float and a complex in a
    complex type; a type of no category does not resolve. *)
Theorem acc_type_keeps_category
    (device_compiler : bool) (T A : CType) (D : DeviceType) :
  AccumulateTypeDevice device_compiler T D = Some A ->
  category A = category T /\ category T <> None.
Proof.
  intros H.
  table_cases T D device_compiler;
    simpl in H; injection H as <-; (split; [ reflexivity | discriminate ]).
Qed.

Lemma acc_type_keeps_category_witness :
  category (complex float_t) = category (complex Half) /\
  category (complex Half) <> None.
Proof.
  apply (acc_type_keeps_category false (complex Half) (complex float_t) CPU).
  reflexivity.
Defined.

(* ===================================================================== *)
(** ** Further properties of the GenericSlice node *)
(* ===================================================================== *)

Section Rendering.

Lemma append_empty_r_aux (a : string) : a ++ "" = a.
Proof.
  induction a as [ | c a IH ]; simpl; [ reflexivity | now rewrite IH ].
Qed.

Lemma append_cancel_l (a x y : string) : a ++ x = a ++ y -> x = y.
Proof.
  induction a as [ | c a IH ]; simpl; intros H; [ exact H | ].
  injection H as H. exact (IH H).
Qed.

(** A run of [P]-characters followed by a stop is read back uniquely. *)
Lemma split_at_stop (P : ascii -> bool) (a : string) :
  forall a' s s',
    all_chars P a = true -> all_chars P a' = true ->
    stops P s = true -> stops P s' = true ->
    a ++ s = a' ++ s' -> a = a' /\ s = s'.
Proof.
  induction a as [ | c a IH ]; intros a' s s' Ha Ha' Hs Hs' H.
  - destruct a' as [ | c' a' ]; [ split; [ reflexivity | exact H ] | ].
    exfalso. simpl in H, Ha'. subst s. simpl in Hs.
    apply andb_prop in Ha' as [Hc' _]. rewrite Hc' in Hs. discriminate.
  - simpl in Ha. apply andb_prop in Ha as [Hc Ha].
    destruct a' as [ | c' a' ].
    + exfalso. simpl in H. subst s'. simpl in Hs'.
      rewrite Hc in Hs'. discriminate.
    + simpl in Ha'. apply andb_prop in Ha' as [_ Ha'].
      simpl in H. injection H as -> H.
      destruct (IH a' s s' Ha Ha' Hs Hs' H) as [-> ->].
      split; reflexivity.
Qed.

Lemma all_chars_app (P : ascii -> bool) (a b : string) :
  all_chars P a = true -> all_chars P b = true ->
  all_chars P (a ++ b) = true.
Proof.
  induction a as [ | c a IH ]; simpl; intros Ha Hb; [ exact Hb | ].
  apply andb_prop in Ha as [Hc Ha]. now rewrite Hc, IH.
Qed.

Lemma all_chars_weaken (P Q : ascii -> bool) (s : string) :
  (forall c, P c = true -> Q c = true) ->
  all_chars P s = true -> all_chars Q s = true.
Proof.
  intros HPQ. induction s as [ | c s IH ]; simpl; intros H; [ reflexivity | ].
  apply andb_prop in H as [Hc H]. now rewrite (HPQ _ Hc), IH.
Qed.

Lemma num_char_list_char (c : ascii) : num_char c = true -> list_char c = true.
Proof.
  intros H. unfold list_char. now rewrite H.
Qed.

Lemma uint_digits (d : Decimal.uint) :
  all_chars num_char (NilEmpty.string_of_uint d) = true.
Proof.
  induction d; simpl; auto.
Qed.

(** A rendered integer consists of digits and at most a sign. *)
Lemma show_int64_chars (z : Z) : all_chars num_char (show_int64 z) = true.
Proof.
  unfold show_int64.
  destruct (Z.to_int z) as [d | d]; simpl;
    destruct d; simpl; try reflexivity; apply uint_digits.
Qed.

Lemma show_int64_nonempty (z : Z) : show_int64 z <> "".
Proof.
  unfold show_int64.
  destruct z as [ | p | p ]; simpl; try discriminate.
  destruct (Pos.to_uint p); simpl; discriminate.
Qed.

(** Rendering loses nothing: different integers have different strings. *)
Lemma show_int64_inj (z z' : Z) : show_int64 z = show_int64 z' -> z = z'.
Proof.
  unfold show_int64. intros H.
  apply (f_equal NilZero.int_of_string) in H.
  assert (Hok : forall n, Z.to_int n <> Decimal.Pos Decimal.Nil /\
                          Z.to_int n <> Decimal.Neg Decimal.Nil).
  { intros [ | p | p ]; simpl; split; try discriminate;
      intros Heq; injection Heq as Heq;
      exact (Unsigned.to_uint_nonnil p Heq). }
  rewrite !NilZero.isi in H by apply Hok.
  injection H as H. now apply DecimalZ.to_int_inj.
Qed.

Lemma Join_cons2 (delimiter : string) (x y : Z) (rest : list Z) :
  Join delimiter (x :: y :: rest)
    = show_int64 x ++ delimiter ++ Join delimiter (y :: rest).
Proof. reflexivity. Qed.

Lemma Join_chars (v : list Z) : all_chars list_char (Join ", " v) = true.
Proof.
  induction v as [ | x rest IH ]; [ reflexivity | ].
  assert (Hx : all_chars list_char (show_int64 x) = true)
    by (apply (all_chars_weaken num_char);
        [ apply num_char_list_char | apply show_int64_chars ]).
  destruct rest as [ | y rest ]; [ exact Hx | ].
  rewrite Join_cons2. apply all_chars_app; [ exact Hx | ].
  apply (all_chars_app list_char ", "); [ reflexivity | exact IH ].
Qed.

Lemma Join_nonempty (x : Z) (rest : list Z) : Join ", " (x :: rest) <> "".
Proof.
  pose proof (show_int64_nonempty x) as Hx.
  destruct rest as [ | y rest ]; [ exact Hx | ].
  rewrite Join_cons2. destruct (show_int64 x); [ now elim Hx | discriminate ].
Qed.

(** The joined string determines the list. *)
Lemma Join_inj (v : list Z) :
  forall v', Join ", " v = Join ", " v' -> v = v'.
Proof.
  induction v as [ | x rest IH ]; intros v' H.
  - destruct v' as [ | x' rest' ]; [ reflexivity | ].
    exfalso. symmetry in H. exact (Join_nonempty _ _ H).
  - destruct v' as [ | x' rest' ];
      [ exfalso; exact (Join_nonempty _ _ H) | ].
    assert (Hsplit : forall s s',
              stops num_char s = true -> stops num_char s' = true ->
              show_int64 x ++ s = show_int64 x' ++ s' -> x = x' /\ s = s').
    { intros s s' Hs Hs' Heq.
      destruct (split_at_stop num_char _ _ _ _ (show_int64_chars x)
                  (show_int64_chars x') Hs Hs' Heq) as [Hx Hrest].
      split; [ now apply show_int64_inj | exact Hrest ]. }
    destruct rest as [ | y rest ]; destruct rest' as [ | y' rest' ].
    + f_equal. apply show_int64_inj. exact H.
    + exfalso. rewrite Join_cons2 in H.
      change (Join ", " [x]) with (show_int64 x) in H.
      rewrite <- (append_empty_r_aux (show_int64 x)) in H.
      apply Hsplit in H;
        [ destruct H as [_ Habs]; discriminate | reflexivity | reflexivity ].
    + exfalso. rewrite Join_cons2 in H.
      change (Join ", " [x']) with (show_int64 x') in H.
      rewrite <- (append_empty_r_aux (show_int64 x')) in H.
      apply Hsplit in H;
        [ destruct H as [_ Habs]; discriminate | reflexivity | reflexivity ].
    + rewrite !Join_cons2 in H.
      apply Hsplit in H; [ | reflexivity | reflexivity ].
      destruct H as [-> Hrest].
      f_equal. apply IH. exact (append_cancel_l ", " _ _ Hrest).
Qed.

End Rendering.

(** X9: the string of a node determines its attributes: two nodes with the
    same base description and the same [ToString] have the same
    [base_indices] and the same [sizes]. *)
Theorem ToString_determines_attributes
    (TsNode_ToString : TsNode -> string) (n n' : GenericSlice) :
  TsNode_ToString (base n) = TsNode_ToString (base n') ->
  ToString TsNode_ToString n = ToString TsNode_ToString n' ->
  base_indices_ n = base_indices_ n' /\ sizes_ n = sizes_ n'.
Proof.
  intros Hbase H. rewrite !ToString_unfold, Hbase in H.
  apply append_cancel_l in H. apply append_cancel_l in H.
  apply (split_at_stop list_char) in H;
    [ | apply Join_chars | apply Join_chars | reflexivity | reflexivity ].
  destruct H as [Hb H]. apply (append_cancel_l "), sizes=(") in H.
  apply (split_at_stop list_char) in H;
    [ | apply Join_chars | apply Join_chars | reflexivity | reflexivity ].
  destruct H as [Hs _].
  split; apply Join_inj; assumption.
Qed.

Lemma ToString_determines_attributes_witness :
  let n := GenericSlice_new (fun _ _ => 0) (fun _ h => h)
             (mkValue 0 0 (mkShape 7 [8; 8])) [2; -3] [4; 4] in
  let n' := GenericSlice_new (fun _ _ => 0) (fun _ h => h)
              (mkValue 5 1 (mkShape 7 [9; 9])) [2; -3] [4; 4] in
  base_indices_ n = base_indices_ n' /\ sizes_ n = sizes_ n'.
Proof.
  apply (ToString_determines_attributes (fun _ => "generic_slice")
           (GenericSlice_new (fun _ _ => 0) (fun _ h => h)
              (mkValue 0 0 (mkShape 7 [8; 8])) [2; -3] [4; 4])
           (GenericSlice_new (fun _ _ => 0) (fun _ h => h)
              (mkValue 5 1 (mkShape 7 [9; 9])) [2; -3] [4; 4])).
  - reflexivity.
  - reflexivity.
Defined.

(** X10: cloning a clone is cloning the original: whatever operands the
    first clone was bound to, a second [Clone] gives the node a direct
    [Clone] of the original gives, and fails when it fails. *)
Theorem Clone_of_clone
    (MHash : list Z -> list Z -> hash_t)
    (node_hash : OpKind -> hash_t -> hash_t)
    (this clone : GenericSlice) (operands operands' : OpList) :
  Clone MHash node_hash this operands = Ok clone ->
  Clone MHash node_hash clone operands'
    = Clone MHash node_hash this operands'.
Proof.
  unfold Clone, bind. intros H.
  destruct (ArrayRef_at operands 0) as [ v | e ]; [ | discriminate ].
  injection H as <-. reflexivity.
Qed.

Lemma Clone_of_clone_witness :
  let MHash := fun b s : list Z => Z.of_nat (List.length b + List.length s) in
  let node_hash := fun (k : OpKind) (h : hash_t) => h in
  let v := mkValue 1 0 (mkShape 7 [6; 6]) in
  let this := GenericSlice_new MHash node_hash
                (mkValue 0 0 (mkShape 7 [8; 8])) [1; 1] [2; 2] in
  Clone MHash node_hash (GenericSlice_new MHash node_hash v [1; 1] [2; 2]) []
    = Clone MHash node_hash this [].
Proof.
  apply (Clone_of_clone
           (fun b s : list Z => Z.of_nat (List.length b + List.length s))
           (fun (k : OpKind) (h : hash_t) => h)
           (GenericSlice_new
              (fun b s : list Z => Z.of_nat (List.length b + List.length s))
              (fun (k : OpKind) (h : hash_t) => h)
              (mkValue 0 0 (mkShape 7 [8; 8])) [1; 1] [2; 2])
           _ [mkValue 1 0 (mkShape 7 [6; 6])] []).
  reflexivity.
Defined.

(** X11: a node as the constructor builds it is reproduced by [Clone] over
    its own operands: the clone has the same kind, operand, output count,
    hash, attributes and deferred shape. *)
Theorem Clone_over_own_operands
    (MHash : list Z -> list Z -> hash_t)
    (node_hash : OpKind -> hash_t -> hash_t)
    (input : Value) (base_indices sizes : list Z) :
  let this := GenericSlice_new MHash node_hash input base_indices sizes in
  Clone MHash node_hash this (operands (base this)) = Ok this.
Proof.
  reflexivity.
Qed.

(* ===================================================================== *)
(** ** The flag and the CPU row *)
(* ===================================================================== *)

(** X12: the [is_cuda] flag changes the accumulation type of exactly two
    types, [float] and [complex<float>]; for every other type, the native
    [half] apart, both flags give the same answer (or both none). *)
Theorem acc_type_flag_matters
    (device_compiler : bool) (T : CType) :
  T <> half ->
  (acc_type device_compiler T true <> acc_type device_compiler T false
   <-> T = float_t \/ T = complex float_t).
Proof.
  intros Hhalf. unfold acc_type, AccumulateType. split.
  - intros Hne.
    destruct T as [ | | | | | | | | | | | | | | | | T | ? ];
      try (exfalso; apply Hne; reflexivity);
      try (left; reflexivity).
    + exfalso. apply Hhalf. reflexivity.
    + destruct T; try (exfalso; apply Hne; reflexivity).
      right. reflexivity.
  - intros [-> | ->]; discriminate.
Qed.

Lemma acc_type_flag_matters_witness :
  acc_type true (complex float_t) true <> acc_type true (complex float_t) false
  <-> complex float_t = float_t \/ complex float_t = complex float_t.
Proof.
  apply (acc_type_flag_matters true (complex float_t)). discriminate.
Defined.

(** X13: on CPU a floating-point element type accumulates in [double] when
    it is [float] or [double], and in [float] when it is one of the six
    reduced-precision types. *)
Theorem CPU_floating_acc_type (device_compiler : bool) (T : CType) :
  In T floating_types ->
  (T = float_t \/ T = double_t ->
     AccumulateTypeDevice device_compiler T CPU = Some double_t) /\
  (T <> float_t -> T <> double_t ->
     AccumulateTypeDevice device_compiler T CPU = Some float_t).
Proof.
  intros HT. simpl in HT.
  repeat (destruct HT as [<- | HT]); try contradiction;
    (split;
     [ intros [Heq | Heq]; first [ discriminate Heq | reflexivity ]
     | intros Hf Hd; first [ reflexivity
                           | exfalso; apply Hf; reflexivity
                           | exfalso; apply Hd; reflexivity ] ]).
Qed.

Lemma CPU_floating_acc_type_witness :
  (BFloat16 = float_t \/ BFloat16 = double_t ->
     AccumulateTypeDevice false BFloat16 CPU = Some double_t) /\
  (BFloat16 <> float_t -> BFloat16 <> double_t ->
     AccumulateTypeDevice false BFloat16 CPU = Some float_t).
Proof.
  apply (CPU_floating_acc_type false BFloat16). in_list.
Defined.
